(** * A shallow embedding of [kplr/api.py] (dfm/kplr, version 0.2.2)

    The client talks to two HTTP services (the Exoplanet Archive and MAST)
    and caches FITS files on disk.  The embedding follows the Python code:
    - Python values are [pyval]; exceptions are [exc];
    - dicts are stdpp [gmap]s where only lookups matter, and association
      lists (in insertion order) where the iteration order is observable,
      as for the keyword-argument dicts that get URL-encoded;
    - the network and the filesystem are explicit state: the monad [M]
      threads a [world] holding the files, the directories and a trace of
      the I/O performed (existence checks, HTTP requests, writes);
    - Python builtins that are not part of the repository ([int()] and
      [float()] of a string, [json.loads], the float type itself, the MAST
      row adapters of [kplr.mast] and the remote server) are variables of
      the section [Kplr], so every theorem holds for all of them. *)

From stdpp Require Import base gmap list strings.
From Stdlib Require Import ZArith String Ascii.

Open Scope string_scope.

(** stdpp turns off [simpl] on string append; the proofs below compute with it. *)
#[local] Arguments String.append : simpl nomatch.

(** ** String helpers (Python [str] methods on byte strings) *)

Module Str.

Fixpoint startswith (p s : string) : bool :=
  match p, s with
  | EmptyString, _ => true
  | String a p', String b s' => Ascii.eqb a b && startswith p' s'
  | String _ _, EmptyString => false
  end.

(** [needle in hay] *)
Fixpoint contains (needle hay : string) : bool :=
  startswith needle hay ||
  match hay with
  | EmptyString => false
  | String _ hay' => contains needle hay'
  end.

Fixpoint endswith_slash (s : string) : bool :=
  match s with
  | EmptyString => false
  | String c EmptyString => Ascii.eqb c "/"%char
  | String _ s' => endswith_slash s'
  end.

(** [s[:n]] *)
Fixpoint take (n : nat) (s : string) : string :=
  match n, s with
  | O, _ => EmptyString
  | _, EmptyString => EmptyString
  | S n', String c s' => String c (take n' s')
  end.

(** [str.lower()] on a byte string: only A-Z change. *)
Definition lower_char (c : ascii) : ascii :=
  let n := nat_of_ascii c in
  if Nat.leb 65 n && Nat.leb n 90 then ascii_of_nat (n + 32) else c.

Fixpoint lower (s : string) : string :=
  match s with
  | EmptyString => EmptyString
  | String c s' => String (lower_char c) (lower s')
  end.

(** [sep.join(l)] *)
Fixpoint join (sep : string) (l : list string) : string :=
  match l with
  | [] => ""
  | [x] => x
  | x :: l' => x ++ sep ++ join sep l'
  end.

(** [s.replace(a, b)] for one-character [a]. *)
Fixpoint replace_char (a : ascii) (b s : string) : string :=
  match s with
  | EmptyString => EmptyString
  | String c s' =>
      if Ascii.eqb c a then b ++ replace_char a b s'
      else String c (replace_char a b s')
  end.

(** [s.split(",")]: [cur] is the reversed current field. *)
Fixpoint split_aux (sep : ascii) (cur : list ascii) (s : string) : list string :=
  match s with
  | EmptyString => [string_of_list_ascii (rev cur)]
  | String c s' =>
      if Ascii.eqb c sep then string_of_list_ascii (rev cur) :: split_aux sep [] s'
      else split_aux sep (c :: cur) s'
  end.

Definition split (sep : ascii) (s : string) : list string := split_aux sep [] s.

(** [s.splitlines()] of a Python 2 byte string: line breaks are ["\n"],
    ["\r"] and ["\r\n"]; a final line break does not open an empty line. *)
Definition LF : ascii := ascii_of_nat 10.
Definition CR : ascii := ascii_of_nat 13.

Fixpoint splitlines_aux (cur : list ascii) (s : string) : list string :=
  match s with
  | EmptyString =>
      match cur with [] => [] | _ => [string_of_list_ascii (rev cur)] end
  | String c s' =>
      if Ascii.eqb c LF then string_of_list_ascii (rev cur) :: splitlines_aux [] s'
      else if Ascii.eqb c CR then
        match s' with
        | String d s'' =>
            if Ascii.eqb d LF then string_of_list_ascii (rev cur) :: splitlines_aux [] s''
            else string_of_list_ascii (rev cur) :: splitlines_aux [] s'
        | EmptyString => [string_of_list_ascii (rev cur)]
        end
      else splitlines_aux (c :: cur) s'
  end.

Definition splitlines (s : string) : list string := splitlines_aux [] s.

(** Whether the byte string decodes with the [ascii] codec, as Python 2
    does when a [unicode] meets a [str]: every byte is below [0x80], that
    is, its high bit is clear. *)
Fixpoint is_ascii (s : string) : bool :=
  match s with
  | EmptyString => true
  | String (Ascii _ _ _ _ _ _ _ b7) s' => negb b7 && is_ascii s'
  end.

(** [str(n)] for a Python int. *)
Definition digit (n : Z) : ascii := ascii_of_nat (48 + Z.to_nat n).

Fixpoint pos_digits (fuel : nat) (n : Z) (acc : string) : string :=
  match fuel with
  | O => acc
  | S fuel' =>
      let acc' := String (digit (n mod 10)) acc in
      if (n <? 10)%Z then acc' else pos_digits fuel' (n / 10)%Z acc'
  end.

Definition nat_str (n : Z) : string := pos_digits (S (Z.to_nat (Z.log2 (Z.abs n)))) n "".

Definition int_str (n : Z) : string :=
  if (n <? 0)%Z then "-" ++ nat_str (- n) else nat_str n.

Fixpoint zeros (n : nat) : string :=
  match n with O => "" | S n' => "0" ++ zeros n' end.

(** ["{0:09d}".format(n)]: width 9, zero fill after the sign. *)
Definition format_09d (n : Z) : string :=
  if (n <? 0)%Z then
    let d := nat_str (- n) in "-" ++ zeros (8 - String.length d) ++ d
  else
    let d := nat_str n in zeros (9 - String.length d) ++ d.

End Str.

Example format_09d_pos : Str.format_09d 10666592 = "010666592".
Proof. reflexivity. Qed.
Example format_09d_neg : Str.format_09d (-5) = "-00000005".
Proof. reflexivity. Qed.
Example splitlines_ex : Str.splitlines "a,b
1,2
" = ["a,b"; "1,2"].
Proof. reflexivity. Qed.
Example split_ex : Str.split "," "a,,b" = ["a"; ""; "b"].
Proof. reflexivity. Qed.

(** ** [urllib.quote], [urllib.quote_plus] and [urllib.urlencode] (Python 2.7) *)

Module Url.

Definition always_safe : string :=
  "ABCDEFGHIJKLMNOPQRSTUVWXYZabcdefghijklmnopqrstuvwxyz0123456789_.-".

Fixpoint mem (c : ascii) (s : string) : bool :=
  match s with
  | EmptyString => false
  | String d s' => Ascii.eqb c d || mem c s'
  end.

Definition hex_digit (n : nat) : ascii :=
  if Nat.ltb n 10 then ascii_of_nat (48 + n) else ascii_of_nat (55 + n).

(** ['%{:02X}'.format(ord(c))] *)
Definition pct (c : ascii) : string :=
  let n := nat_of_ascii c in
  String "%" (String (hex_digit (n / 16)) (String (hex_digit (n mod 16)) EmptyString)).

Fixpoint quote (s safe : string) : string :=
  match s with
  | EmptyString => EmptyString
  | String c s' =>
      (if mem c always_safe || mem c safe then String c EmptyString else pct c)
        ++ quote s' safe
  end.

Definition quote_plus (s safe : string) : string :=
  if Str.contains " " s then Str.replace_char " " "+" (quote s (safe ++ " "))
  else quote s safe.

End Url.

Example quote_plus_ex :
  Url.quote_plus "kepid like '9787239'" "" = "kepid+like+%279787239%27".
Proof. reflexivity. Qed.
Example quote_plus_ea_ex :
  Url.quote_plus "kepoi_name+like+'K00145.01'" "'+" = "kepoi_name+like+'K00145.01'".
Proof. reflexivity. Qed.

(** ** The program *)

(** The Python builtins the module relies on: the float type; [int(s)] and
    [float(s)] of a string ([None] is the [ValueError] they raise on an
    unparseable string, [int_error s] and [float_error s] its message);
    [float(n)] and [int(f)] between ints and floats;
    [str(f)] and ["{0:08.2f}".format(f)] of a float; and [json.loads],
    giving the rows of the JSON array ([None] on a [ValueError]). *)
Class PyRuntime := {
  F : Type;
  py_int : string -> option Z;
  py_float : string -> option F;
  int_error : string -> string;
  float_error : string -> string;
  float_of_int : Z -> F;
  int_of_float : F -> Z;
  float_str : F -> string;
  float_fmt_08_2f : F -> string;
  J : Type;
  json_loads : string -> option (list J)
}.

Section Kplr.

Context {rt : PyRuntime}.

Inductive pyval :=
  | VInt (n : Z)
  | VFloat (f : F)
  | VStr (s : string)
  | VNone.

(** *** [API._munge_dict] *)

(** The body of the [for k, v in row.items()] loop. *)
Definition munge_step (tmp : gmap string pyval) (kv : string * string) : gmap string pyval :=
  let '(k, v) := kv in
  let tmp :=
    match py_int v with
    | Some n => <[k := VInt n]> tmp
    | None =>
        match py_float v with
        | Some f => <[k := VFloat f]> tmp
        | None => <[k := VStr v]> tmp
        end
    end in
  (* Empty entries are mapped to None. *)
  if String.eqb v "" then <[k := VNone]> tmp else tmp.

Definition _munge_dict (row : gmap string string) : gmap string pyval :=
  foldl munge_step ∅ (map_to_list row).


(** *** Exceptions, dicts, and the world *)

Inductive exc :=
  | APIError (code : Z) (url txt : string)
  | ValueError (msg : string)
  | KeyError (key : string)
  | AttributeError (name : string)
  | TypeError (msg : string)
  | IndexError
  | OSError (path : string)
  | HTTPError (code : Z) (url : string)
  | UnicodeDecodeError.

(** A keyword-argument dict, in insertion order. *)
Definition dict_get {V} (k : string) (d : list (string * V)) : option V :=
  snd <$> List.find (fun kv => String.eqb (fst kv) k) d.

(** [d[k] = v]: an existing key keeps its place. *)
Definition dict_set {V} (k : string) (v : V) (d : list (string * V)) : list (string * V) :=
  if List.existsb (fun kv => String.eqb (fst kv) k) d
  then map (fun kv => if String.eqb (fst kv) k then (k, v) else kv) d
  else d ++ [(k, v)].

(** [d.pop(k, default)] *)
Definition dict_pop {V} (k : string) (default : V) (d : list (string * V))
  : V * list (string * V) :=
  (match dict_get k d with Some v => v | None => default end,
   List.filter (fun kv => negb (String.eqb (fst kv) k)) d).

(** [dict(pairs)]: a later pair overrides an earlier one. *)
Definition dict_of_pairs (l : list (string * string)) : gmap string string :=
  foldl (fun m kv => <[fst kv := snd kv]> m) ∅ l.

Record request := { req_url : string; req_data : option string }.
Record response := { resp_code : Z; resp_url : string; resp_body : string }.

(** The I/O the program performs, in order. *)
Inductive event :=
  | EvExists (path : string)
  | EvRequest (req : request)
  | EvMakedirs (path : string)
  | EvWrite (path : string).

Record world := {
  w_files : gmap string string;
  w_dirs : gset string;
  w_trace : list event
}.

Definition log (e : event) (w : world) : world :=
  {| w_files := w_files w; w_dirs := w_dirs w; w_trace := w_trace w ++ [e] |}.

(** The remote side: what [urllib2.urlopen(r)] answers to [r]. *)
Variable server : request -> response.

Definition M (A : Type) : Type := world -> (A + exc) * world.

Global Instance M_ret : MRet M := fun A x w => (inl x, w).
Global Instance M_bind : MBind M := fun A B f m w =>
  match m w with
  | (inl x, w') => f x w'
  | (inr e, w') => (inr e, w')
  end.

Definition raise {A} (e : exc) : M A := fun w => (inr e, w).

(** The statuses [urllib2]'s [HTTPErrorProcessor] lets through. *)
Definition http_ok (code : Z) : bool := ((200 <=? code) && (code <? 300))%Z.

(** [urllib2.urlopen(r)], with [getcode()], [geturl()] and [read()]:
    [server r] is the final answer, after the redirects [urllib2] follows,
    and a status outside [200 <= code < 300] raises [HTTPError]. *)
Definition urlopen (r : request) : M response :=
  fun w =>
    let resp := server r in
    if http_ok (resp_code resp) then (inl resp, log (EvRequest r) w)
    else (inr (HTTPError (resp_code resp) (resp_url resp)), log (EvRequest r) w).

(** [os.path.exists(p)] *)
Definition path_exists (p : string) : M bool :=
  fun w => (inl (bool_decide (p ∈ dom (w_files w) \/ p ∈ w_dirs w)), log (EvExists p) w).

(** [os.makedirs(p)]: raises [os.error] when [p] exists (the parents it
    creates are not tracked). *)
Definition makedirs (p : string) : M unit :=
  fun w =>
    if bool_decide (p ∈ dom (w_files w) \/ p ∈ w_dirs w) then (inr (OSError p), log (EvMakedirs p) w)
    else (inl tt, {| w_files := w_files w; w_dirs := {[p]} ∪ w_dirs w;
                     w_trace := w_trace w ++ [EvMakedirs p] |}).

(** [open(p, "wb").write(body)] *)
Definition write_file (p body : string) : M unit :=
  fun w => (inl tt, {| w_files := <[p := body]> (w_files w); w_dirs := w_dirs w;
                       w_trace := w_trace w ++ [EvWrite p] |}).

(** [try: m except os.error: pass] *)
Definition except_os_error (m : M unit) : M unit :=
  fun w => match m w with (inr (OSError _), w') => (inl tt, w') | r => r end.

Fixpoint mapM {A B} (f : A -> M B) (l : list A) : M (list B) :=
  match l with
  | [] => mret []
  | x :: l' => y ← f x; ys ← mapM f l'; mret (y :: ys)
  end.

(** *** [API.ea_request] *)

Definition ea_url : string :=
  "http://exoplanetarchive.ipac.caltech.edu/cgi-bin/nstedAPI/nph-nstedAPI".

(** A [sort] argument: a column name, or a [(column, direction)] pair. *)
Inductive sortspec :=
  | SortStr (col : string)
  | SortPair (col : string) (dir : Z).

(** The safe characters of the Exoplanet Archive quoting: double quote,
    single quote and plus. *)
Definition ea_safe : string := String (ascii_of_nat 34) "'+".

Definition ea_params (table : string) (sort : option sortspec)
    (params : list (string * string)) : list (string * string) :=
  let params := dict_set "table" table params in
  match sort with
  | None => params
  | Some (SortStr s) => dict_set "order" s params
  | Some (SortPair c d) =>
      let params := dict_set "order" c params in
      if (d =? -1)%Z then dict_set "order" (c ++ "+desc") params else params
  end.

Definition ea_payload (params : list (string * string)) : list string :=
  map (fun kv => fst kv ++ "=" ++ Url.quote_plus (snd kv) ea_safe) params.

(** The CSV body: a header row of column names, then one row per line. *)
Definition parse_csv (txt : string) : M (list (gmap string pyval)) :=
  match Str.splitlines txt with
  | [] => raise IndexError
  | header :: lines =>
      let columns := Str.split "," header in
      mret (map (fun line => _munge_dict (dict_of_pairs (zip columns (Str.split "," line)))) lines)
  end.

Definition ea_request (table : string) (sort : option sortspec)
    (params : list (string * string)) : M (list (gmap string pyval)) :=
  let payload := ea_payload (ea_params table sort params) in
  handler ← urlopen {| req_url := ea_url; req_data := Some (Str.join "&" payload) |};
  let code := resp_code handler in
  let txt := resp_body handler in
  let full_url := resp_url handler ++ "?" ++ Str.join "&" payload in
  (* Hack because Exoplanet Archive doesn't return HTTP errors. *)
  (* [int(code) != 200 or "ERROR" in txt]: with [unicode_literals],
     [u"ERROR" in txt] first decodes [txt] as ASCII. *)
  if negb (code =? 200)%Z then raise (APIError code full_url txt)
  else if negb (Str.is_ascii txt) then raise UnicodeDecodeError
  else if Str.contains "ERROR" txt then raise (APIError code full_url txt)
  else parse_csv txt.


(** *** [API.mast_request] *)

(** [kplr.mast.planet_adapter] and [kplr.mast.star_adapter]: one JSON row
    to the dict of record fields. *)
Class MastAdapters := {
  planet_adapter : J -> gmap string pyval;
  star_adapter : J -> gmap string pyval
}.

Context {ad : MastAdapters}.

(** [str(v)], also ["{0}".format(v)] *)
Definition str_of_pyval (v : pyval) : string :=
  match v with
  | VInt n => Str.int_str n
  | VFloat f => float_str f
  | VStr s => s
  | VNone => "None"
  end.

(** [urllib.urlencode(params)] *)
Definition urlencode (params : list (string * pyval)) : string :=
  Str.join "&" (map (fun kv => Url.quote_plus (fst kv) "" ++ "="
                               ++ Url.quote_plus (str_of_pyval (snd kv)) "") params).

Definition mast_url (category : string) : string :=
  "http://archive.stsci.edu/kepler/" ++ category ++ "/search.php".

Definition mast_params (sort : option sortspec) (params : list (string * pyval))
  : list (string * pyval) :=
  let params := dict_set "action"
                  (match dict_get "action" params with Some v => v | None => VStr "Search" end)
                  params in
  let params := dict_set "outputformat" (VStr "JSON") params in
  let params := dict_set "coordformat" (VStr "dec") params in
  let params := dict_set "verb" (VInt 3) params in
  match sort with
  | None => params
  | Some (SortStr s) => dict_set "ordercolumn1" (VStr s) params
  | Some (SortPair c d) =>
      let params := dict_set "ordercolumn1" (VStr c) params in
      if (d =? -1)%Z then dict_set "descending1" (VStr "on") params else params
  end.

(** Every call of [mast_request] in [api.py] passes an [adapter]. *)
Definition mast_request (category : string) (adapter : J -> gmap string pyval)
    (sort : option sortspec) (params : list (string * pyval))
  : M (list (gmap string pyval)) :=
  let params := mast_params sort params in
  handler ← urlopen {| req_url := mast_url category; req_data := Some (urlencode params) |};
  let code := resp_code handler in
  let txt := resp_body handler in
  if negb (code =? 200)%Z then
    raise (APIError code (resp_url handler ++ "?" ++ urlencode params) txt)
  else
    match json_loads txt with
    | None =>
        (* [u"No JSON object could be decoded.\n" + txt] decodes [txt]. *)
        if Str.is_ascii txt then
          raise (APIError code (resp_url handler ++ "?" ++ urlencode params)
                   ("No JSON object could be decoded." ++ String Str.LF txt))
        else raise UnicodeDecodeError
    | Some result => mret (map adapter result)
    end.

(** *** The record classes *)

(** The [_id] formatting in [Model.__init__]: a [KeyError] for the
    first field of [_id] missing from [params] (the formatted name itself
    is only displayed). *)
Fixpoint format_id (fields : list string) (params : gmap string pyval) : M unit :=
  match fields with
  | [] => mret tt
  | k :: fields' =>
      match params !! k with
      | Some _ => format_id fields' params
      | None => raise (KeyError k)
      end
  end.

(** [self.k]: [Model.__init__] made every field an attribute. *)
Definition getattr (params : gmap string pyval) (k : string) : M pyval :=
  match params !! k with
  | Some v => mret v
  | None => raise (AttributeError k)
  end.

(** The lazily filled caches ([self._star], [self._kois], [self._koi]);
    [None] is Python's [None]. *)
Inductive KOI :=
  | MkKOI (koi_params : gmap string pyval) (koi__star : option Star)
with Star :=
  | MkStar (star_params : gmap string pyval) (star_kepid : pyval)
           (star__kois : option (list KOI)).

Record Planet := MkPlanet {
  planet_params : gmap string pyval;
  planet__koi : option KOI;
  planet__star : option Star
}.

Definition make_KOI (params : gmap string pyval) : M KOI :=
  _ ← format_id ["kepoi_name"] params;
  mret (MkKOI params None).

Definition make_Planet (params : gmap string pyval) : M Planet :=
  _ ← format_id ["kepler_name"] params;
  mret (MkPlanet params None None).

Definition make_Star (params : gmap string pyval) : M Star :=
  _ ← format_id ["kic_kepler_id"] params;
  kepid ← getattr params "kic_kepler_id";
  mret (MkStar params kepid None).

(** [float(v)] *)
Definition to_float (v : pyval) : M F :=
  match v with
  | VFloat f => mret f
  | VInt n => mret (float_of_int n)
  | VStr s =>
      match py_float s with
      | Some f => mret f
      | None => raise (ValueError (float_error s))
      end
  | VNone => raise (TypeError "float() argument must be a string or a number")
  end.

(** [int(v)] *)
Definition to_int (v : pyval) : M Z :=
  match v with
  | VInt n => mret n
  | VFloat f => mret (int_of_float f)
  | VStr s =>
      match py_int s with
      | Some n => mret n
      | None => raise (ValueError (int_error s))
      end
  | VNone => raise (TypeError "int() argument must be a string or a number")
  end.

(** *** The lookups of [API] *)

(** [API.kois]; a [sort] keyword argument becomes [ea_request]'s [sort]. *)
Definition kois (sort : option sortspec) (params : list (string * string)) : M (list KOI) :=
  rows ← ea_request "cumulative" sort params;
  mapM make_KOI rows.

Definition koi_where (f : F) : string := "kepoi_name+like+'K" ++ float_fmt_08_2f f ++ "'".

Definition koi_not_found (koi_number : pyval) : string :=
  "No KOI found with the number: '" ++ str_of_pyval koi_number ++ "'".

Definition koi (koi_number : pyval) : M KOI :=
  f ← to_float koi_number;
  ks ← kois None [("where", koi_where f)];
  match ks with
  | [] => raise (ValueError (koi_not_found koi_number))
  | k :: _ => mret k
  end.

Definition planets (sort : option sortspec) (params : list (string * pyval)) : M (list Planet) :=
  rows ← mast_request "confirmed_planets" planet_adapter sort params;
  mapM make_Planet rows.

(** [re.findall("([0-9]+)[-\s]*([a-zA-Z])", name)], with the backtracking of
    the greedy [+] and [*]; [\s] is [[ \t\n\r\f\v]] (no [re.UNICODE]). *)
Definition is_digit (c : ascii) : bool := Nat.leb 48 (nat_of_ascii c) && Nat.leb (nat_of_ascii c) 57.
Definition is_alpha (c : ascii) : bool :=
  let n := nat_of_ascii c in (Nat.leb 65 n && Nat.leb n 90) || (Nat.leb 97 n && Nat.leb n 122).
Definition is_sep (c : ascii) : bool :=
  let n := nat_of_ascii c in Nat.eqb n 45 || Nat.eqb n 32 || (Nat.leb 9 n && Nat.leb n 13).

(** [[-\s]*([a-zA-Z])]: one more separator if the rest then matches, else the letter. *)
Fixpoint match_seps_letter (s : list ascii) : option (ascii * list ascii) :=
  match s with
  | [] => None
  | c :: s' =>
      match (if is_sep c then match_seps_letter s' else None) with
      | Some r => Some r
      | None => if is_alpha c then Some (c, s') else None
      end
  end.

(** [([0-9]+)] then the rest; [acc] holds the digits already taken. *)
Fixpoint match_digits (acc : list ascii) (s : list ascii)
  : option (list ascii * ascii * list ascii) :=
  match s with
  | [] => None
  | c :: s' =>
      if is_digit c then
        match match_digits ((acc ++ [c])%list) s' with
        | Some r => Some r
        | None =>
            match match_seps_letter s' with
            | Some (l, rest) => Some ((acc ++ [c])%list, l, rest)
            | None => None
            end
        end
      else None
  end.

(** Matches are tried at every position, left to right, and resume after the
    end of the previous match. *)
Fixpoint findall_aux (fuel : nat) (s : list ascii) : list (string * string) :=
  match fuel, s with
  | O, _ => []
  | _, [] => []
  | S fuel', c :: s' =>
      match match_digits [] s with
      | Some (ds, l, rest) => (string_of_list_ascii ds, String l EmptyString) :: findall_aux fuel' rest
      | None => findall_aux fuel' s'
      end
  end.

Definition planet_matches (name : string) : list (string * string) :=
  let s := list_ascii_of_string name in findall_aux (List.length s) s.

Definition invalid_planet_name (name : string) : string :=
  "Invalid planet name '" ++ name ++ "'".

Definition planet_not_found (kepler_name : string) : string :=
  "No planet found with the name: '" ++ kepler_name ++ "'".

Definition planet (name : string) : M Planet :=
  match planet_matches name with
  | [(d, l)] =>
      let kepler_name := "Kepler-" ++ d ++ " " ++ l in
      ps ← planets None [("kepler_name", VStr kepler_name); ("max_records", VInt 1)];
      match ps with
      | [] => raise (ValueError (planet_not_found kepler_name))
      | p :: _ => mret p
      end
  | _ => raise (ValueError (invalid_planet_name name))
  end.

(** [params["max_records"] = params.pop("max_records", 100)] *)
Definition stars_params (params : list (string * pyval)) : list (string * pyval) :=
  let '(m, params) := dict_pop "max_records" (VInt 100) params in
  dict_set "max_records" m params.

Definition stars (sort : option sortspec) (params : list (string * pyval)) : M (list Star) :=
  rows ← mast_request "kic10" star_adapter sort (stars_params params);
  mapM make_Star rows.

Definition star_not_found (kepid : pyval) : string :=
  "No KIC target found with id: '" ++ str_of_pyval kepid ++ "'".

Definition star (kepid : pyval) : M Star :=
  ss ← stars None [("kic_kepler_id", kepid); ("max_records", VInt 1)];
  match ss with
  | [] => raise (ValueError (star_not_found kepid))
  | s :: _ => mret s
  end.

(** *** The relationship properties; each returns the updated instance. *)

(** [KOI.star] *)
Definition KOI_star (k : KOI) : M (Star * KOI) :=
  match k with
  | MkKOI params (Some s) => mret (s, k)
  | MkKOI params None =>
      kepid ← getattr params "kepid";
      s ← star kepid;
      mret (s, MkKOI params (Some s))
  end.

(** [Planet.koi] *)
Definition Planet_koi (p : Planet) : M (KOI * Planet) :=
  match planet__koi p with
  | Some k => mret (k, p)
  | None =>
      n ← getattr (planet_params p) "koi_number";
      k ← koi n;
      mret (k, MkPlanet (planet_params p) (Some k) (planet__star p))
  end.

(** [Planet.star] *)
Definition Planet_star (p : Planet) : M (Star * Planet) :=
  match planet__star p with
  | Some s => mret (s, p)
  | None =>
      kepid ← getattr (planet_params p) "kepid";
      s ← star kepid;
      mret (s, MkPlanet (planet_params p) (planet__koi p) (Some s))
  end.



(** *** [_datafile], [LightCurve], [TargetPixelFile] *)

Inductive product := LightCurve | TargetPixelFile.

Definition product_name (p : product) : string :=
  match p with LightCurve => "lightcurves" | TargetPixelFile => "target_pixel_files" end.

Definition suffixes (p : product) : list string :=
  match p with LightCurve => ["llc"; "slc"] | TargetPixelFile => ["lpd-targ"; "spd-targ"] end.

Definition filetype (p : product) : string :=
  match p with LightCurve => ".fits" | TargetPixelFile => ".fits.gz" end.

(** [posixpath.join(a, *p)] *)
Definition path_join (a : string) (p : list string) : string :=
  fold_left (fun path b =>
               if Str.startswith "/" b then b
               else if String.eqb path "" || Str.endswith_slash path then path ++ b
               else path ++ "/" ++ b) p a.

Record datafile := MkDatafile {
  df_product : product;
  df_params : gmap string pyval;
  df_kepid : string;
  df_base_dir : string;
  df__filename : string
}.

(** [self.ktc_target_type != "LC"] *)
Definition not_LC (v : pyval) : bool :=
  match v with VStr s => negb (String.eqb s "LC") | _ => true end.

(** [_datafile.__init__]; [data_root] is [self.api.data_root]. *)
Definition make_datafile (data_root : string) (prod : product) (params : gmap string pyval)
  : M datafile :=
  _ ← format_id ["sci_data_set_name"; "ktc_target_type"] params;
  kid ← getattr params "ktc_kepler_id";
  n ← to_int kid;
  let kepid := Str.format_09d n in
  let base_dir := path_join data_root ["data"; product_name prod; kepid] in
  ttype ← getattr params "ktc_target_type";
  let suffix := nth (if not_LC ttype then 1 else 0) (suffixes prod) "" in
  dsname ← getattr params "sci_data_set_name";
  let _filename := Str.lower (str_of_pyval dsname ++ "_" ++ suffix ++ filetype prod) in
  mret (MkDatafile prod params kepid base_dir _filename).

(** The [filename] property *)
Definition filename (d : datafile) : string := path_join (df_base_dir d) [df__filename d].

Definition base_url : string := "http://archive.stsci.edu/pub/kepler/".

(** The [url] property *)
Definition url (d : datafile) : string :=
  base_url ++ product_name (df_product d) ++ "/" ++ Str.take 4 (df_kepid d) ++ "/"
  ++ df_kepid d ++ "/" ++ df__filename d.

(** What a data-file method hands back to its caller. *)
Inductive retval :=
  | RetStr (s : string)
  | RetDatafile (d : datafile).

(** [_datafile.fetch] (the [logging.info] calls have no effect on the state). *)
Definition fetch (d : datafile) (clobber : bool) : M retval :=
  let fn := filename d in
  (* Check if the file already exists. *)
  ex ← path_exists fn;
  if ex && negb clobber then mret (RetDatafile d)
  else
    (* Fetch the remote file. *)
    let u := url d in
    handler ← urlopen {| req_url := u; req_data := None |};
    if negb (resp_code handler =? 200)%Z then raise (APIError (resp_code handler) u "")
    else
      (* Make sure that the root directory exists. *)
      _ ← except_os_error (makedirs (df_base_dir d));
      (* Save the contents of the file. *)
      _ ← write_file fn (resp_body handler);
      mret (RetDatafile d).

(** *** [API._data_search], [API.light_curves], [API.target_pixel_files] *)

(** [mast.dataset_adapter] *)
Class DatasetAdapter := { dataset_adapter : J -> gmap string pyval }.

Context {dad : DatasetAdapter}.

Definition data_search_params (kepler_id : pyval) (short_cadence : bool)
  : list (string * pyval) :=
  let params := [("ktc_kepler_id", kepler_id)] in
  if short_cadence then params else dict_set "ktc_target_type" (VStr "LC") params.

Definition data_search_not_found (kepler_id : pyval) : string :=
  "No data files found for: '" ++ str_of_pyval kepler_id ++ "'".

Definition _data_search (kepler_id : pyval) (short_cadence : bool)
  : M (list (gmap string pyval)) :=
  data_list ← mast_request "data_search" dataset_adapter None
                (data_search_params kepler_id short_cadence);
  match data_list with
  | [] => raise (ValueError (data_search_not_found kepler_id))
  | _ => mret data_list
  end.

(** The common body of [light_curves] and [target_pixel_files]; the
    comprehension of [fetch] calls is run for its effects only. *)
Definition data_files (data_root : string) (prod : product) (kepler_id : pyval)
    (short_cadence do_fetch clobber : bool) : M (list datafile) :=
  ds ← _data_search kepler_id short_cadence;
  (* [LightCurve(self, d)] or [TargetPixelFile(self, d)] for each [d] *)
  lcs ← mapM (make_datafile data_root prod) ds;
  if do_fetch then
    _ ← mapM (fun l => fetch l clobber) lcs;
    mret lcs
  else mret lcs.

Definition light_curves (data_root : string) (kepler_id : pyval)
    (short_cadence do_fetch clobber : bool) : M (list datafile) :=
  data_files data_root LightCurve kepler_id short_cadence do_fetch clobber.

Definition target_pixel_files (data_root : string) (kepler_id : pyval)
    (short_cadence do_fetch clobber : bool) : M (list datafile) :=
  data_files data_root TargetPixelFile kepler_id short_cadence do_fetch clobber.

(** An instance of a [Model] subclass. *)
Inductive model :=
  | ModelKOI (k : KOI)
  | ModelPlanet (p : Planet)
  | ModelStar (s : Star)
  | ModelDatafile (d : datafile).

(** [self.kepid]: a field of [params] for a [KOI] or a [Planet], set to
    [self.kic_kepler_id] by [Star.__init__] and to the formatted id by
    [_datafile.__init__]. *)
Definition model_kepid (m : model) : M pyval :=
  match m with
  | ModelKOI (MkKOI params _) => getattr params "kepid"
  | ModelPlanet p => getattr (planet_params p) "kepid"
  | ModelStar (MkStar _ kepid _) => mret kepid
  | ModelDatafile d => mret (VStr (df_kepid d))
  end.

(** [Model.get_light_curves] and [Model.get_target_pixel_files]: the
    [fetch] argument is not passed on. *)
Definition get_light_curves (data_root : string) (self : model)
    (short_cadence do_fetch clobber : bool) : M (list datafile) :=
  kepid ← model_kepid self;
  light_curves data_root kepid short_cadence false clobber.

Definition get_target_pixel_files (data_root : string) (self : model)
    (short_cadence do_fetch clobber : bool) : M (list datafile) :=
  kepid ← model_kepid self;
  target_pixel_files data_root kepid short_cadence false clobber.

(** ** Properties *)



(** The network requests in a trace. *)
Definition is_request (e : event) : bool :=
  match e with EvRequest _ => true | _ => false end.

Definition requests (w : world) : nat := List.length (List.filter is_request (w_trace w)).

(** [os.path.exists(p)]: a file or a directory. *)
Definition on_disk (p : string) (w : world) : Prop := p ∈ dom (w_files w) \/ p ∈ w_dirs w.

(** The request [mast_request] and [ea_request] send. *)
Definition mast_req (category : string) (sort : option sortspec)
    (params : list (string * pyval)) : request :=
  {| req_url := mast_url category; req_data := Some (urlencode (mast_params sort params)) |}.







(** The coercion of one raw value as the spec words it: an int if [int(v)]
    parses, else a float if [float(v)] parses, else the string itself; the
    empty string is [None] whatever the parses give. *)
Definition coerce_spec (v : string) : pyval :=
  if String.eqb v "" then VNone
  else match py_int v with
       | Some n => VInt n
       | None => match py_float v with Some f => VFloat f | None => VStr v end
       end.

(** *** Lemmas on strings, dicts and the monad *)


Lemma sapp_nil_r (a : string) : a ++ "" = a.
Proof. induction a as [|x a IH]; simpl; [reflexivity | now rewrite IH]. Qed.



Lemma munge_step_lookup (tmp : gmap string pyval) (k v j : string) :
  munge_step tmp (k, v) !! j = if decide (k = j) then Some (coerce_spec v) else tmp !! j.
Proof.
  unfold munge_step, coerce_spec.
  destruct (String.eqb v "") eqn:Ev;
    [|destruct (py_int v) eqn:Ei; [|destruct (py_float v) eqn:Ef]];
    rewrite ?lookup_insert; repeat case_decide; try reflexivity;
    try (destruct (py_int v); [|destruct (py_float v)]); rewrite ?lookup_insert;
    repeat case_decide; congruence.
Qed.

Lemma foldl_munge_step_lookup (l : list (string * string)) (acc : gmap string pyval) (j : string) :
  NoDup l.*1 ->
  foldl munge_step acc l !! j =
    match (list_to_map l : gmap string string) !! j with
    | Some v => Some (coerce_spec v)
    | None => acc !! j
    end.
Proof.
  revert acc. induction l as [|[k v] l IH]; intros acc Hnd; cbn [foldl].
  - now rewrite list_to_map_nil, lookup_empty.
  - apply NoDup_cons in Hnd as [Hk Hnd].
    rewrite IH by exact Hnd. rewrite munge_step_lookup, list_to_map_cons, lookup_insert.
    case_decide as Hkj.
    + subst j. now rewrite not_elem_of_list_to_map_1.
    + reflexivity.
Qed.

(** *** C1 *)

(** C1: [_munge_dict] keeps exactly the keys of the row, and the value of
    every key is its raw string coerced as [coerce_spec] says: [int(v)] if
    that parses, else [float(v)] if that parses, else [v] itself; and [None]
    for the empty string, whatever the parse attempts gave. *)
Theorem munge_dict_coerces (row : gmap string string) (k : string) :
  _munge_dict row !! k = coerce_spec <$> row !! k.
Proof.
  unfold _munge_dict.
  rewrite foldl_munge_step_lookup by apply NoDup_fst_map_to_list.
  rewrite list_to_map_to_list.
  destruct (row !! k); simpl; [reflexivity | now rewrite lookup_empty].
Qed.

(** *** Path components *)


















(** *** C2 *)


(** *** Dicts, and the effects of the lookups *)

Lemma find_app {A} (p : A -> bool) (l1 l2 : list A) :
  List.find p (l1 ++ l2) = match List.find p l1 with Some x => Some x | None => List.find p l2 end.
Proof. induction l1 as [|x l1 IH]; simpl; [reflexivity|]. destruct (p x); [reflexivity | exact IH]. Qed.

Lemma find_map_same_key {V} (g : string * V -> string * V) (k : string) (d : list (string * V)) :
  (forall kv, fst (g kv) = fst kv) ->
  List.find (fun kv => String.eqb (fst kv) k) (map g d) =
    g <$> List.find (fun kv => String.eqb (fst kv) k) d.
Proof.
  intros Hg. induction d as [|x d IH]; simpl; [reflexivity|].
  rewrite Hg. destruct (String.eqb (fst x) k); [reflexivity | exact IH].
Qed.

Lemma find_existsb {A} (p : A -> bool) (l : list A) :
  List.existsb p l = true -> exists x, List.find p l = Some x /\ p x = true.
Proof.
  induction l as [|x l IH]; simpl; [discriminate|].
  destruct (p x) eqn:Hx; simpl; [intros _; exists x; auto | exact IH].
Qed.

Lemma find_not_existsb {A} (p : A -> bool) (l : list A) :
  List.existsb p l = false -> List.find p l = None.
Proof.
  induction l as [|x l IH]; simpl; [reflexivity|].
  destruct (p x); simpl; [discriminate | exact IH].
Qed.

Lemma dict_get_set_eq {V} (k : string) (v : V) (d : list (string * V)) :
  dict_get k (dict_set k v d) = Some v.
Proof.
  unfold dict_get, dict_set.
  destruct (List.existsb _ d) eqn:E.
  - rewrite find_map_same_key
      by (intros [k' v']; simpl; destruct (String.eqb k' k) eqn:Ek; [symmetry; now apply String.eqb_eq | reflexivity]).
    destruct (find_existsb _ _ E) as [[k' v'] [Hf Hk]]. rewrite Hf. simpl in *. now rewrite Hk.
  - rewrite find_app, find_not_existsb by exact E. simpl. now rewrite String.eqb_refl.
Qed.

Lemma dict_get_set_ne {V} (k k' : string) (v : V) (d : list (string * V)) :
  k' <> k -> dict_get k (dict_set k' v d) = dict_get k d.
Proof.
  intros Hne. unfold dict_get, dict_set.
  destruct (List.existsb _ d) eqn:E.
  - rewrite find_map_same_key
      by (intros [k'' v']; simpl; destruct (String.eqb k'' k') eqn:Ek; [symmetry; now apply String.eqb_eq | reflexivity]).
    destruct (List.find _ d) as [[k'' v'']|] eqn:Hf; [|reflexivity].
    apply List.find_some in Hf as [_ Hk]. simpl in *. apply String.eqb_eq in Hk. subst k''.
    apply String.eqb_neq in Hne. rewrite String.eqb_sym, Hne. reflexivity.
  - rewrite find_app. destruct (List.find _ d); [reflexivity|]. simpl.
    apply String.eqb_neq in Hne. now rewrite Hne.
Qed.

(** The effects of the lookups on the world. *)
Lemma bind_world {A B} (m : M A) (f : A -> M B) (w : world) :
  (forall x w', snd (f x w') = w') -> snd ((m ≫= f) w) = snd (m w).
Proof.
  intros Hf. unfold mbind, M_bind. destruct (m w) as [[x|e] w']; simpl; [apply Hf | reflexivity].
Qed.

Lemma format_id_world (fields : list string) (params : gmap string pyval) (w : world) :
  snd (format_id fields params w) = w.
Proof.
  revert w. induction fields as [|k fields IH]; intros w; simpl; [reflexivity|].
  destruct (params !! k); [apply IH | reflexivity].
Qed.

Lemma mapM_world {A B} (f : A -> M B) (l : list A) (w : world) :
  (forall x w', snd (f x w') = w') -> snd (mapM f l w) = w.
Proof.
  intros Hf. revert w. induction l as [|x l IH]; intros w; simpl; [reflexivity|].
  rewrite bind_world; [apply Hf|]. intros y w'. rewrite bind_world; [apply IH|]. reflexivity.
Qed.


Lemma make_Planet_world (params : gmap string pyval) (w : world) : snd (make_Planet params w) = w.
Proof. unfold make_Planet. rewrite bind_world; [apply format_id_world | reflexivity]. Qed.


Lemma mast_request_world category adapter sort params w :
  snd (mast_request category adapter sort params w) = log (EvRequest (mast_req category sort params)) w.
Proof.
  unfold mast_request, mbind, M_bind, urlopen. simpl.
  destruct (http_ok _); [|reflexivity].
  destruct (negb _); [reflexivity|]. destruct (json_loads _); [reflexivity|].
  destruct (Str.is_ascii _); reflexivity.
Qed.



Lemma bind_inl {A B} (m : M A) (f : A -> M B) (w w' : world) (x : A) :
  m w = (inl x, w') -> (m ≫= f) w = f x w'.
Proof. intros H. unfold mbind, M_bind. now rewrite H. Qed.

Lemma bind_inr {A B} (m : M A) (f : A -> M B) (w w' : world) (e : exc) :
  m w = (inr e, w') -> (m ≫= f) w = (inr e, w').
Proof. intros H. unfold mbind, M_bind. now rewrite H. Qed.



Lemma planets_world sort params w :
  snd (planets sort params w) = log (EvRequest (mast_req "confirmed_planets" sort params)) w.
Proof.
  unfold planets. rewrite bind_world; [apply mast_request_world|].
  intros; apply mapM_world, make_Planet_world.
Qed.









Lemma requests_log (e : event) (w : world) :
  requests (log e w) = requests w + (if is_request e then 1 else 0).
Proof. unfold requests, log; cbn [w_trace]. rewrite List.filter_app, length_app. destruct e; reflexivity. Qed.

Lemma fetch_cached (d : datafile) (w : world) :
  on_disk (filename d) w ->
  fetch d false w = (inl (RetDatafile d), log (EvExists (filename d)) w).
Proof. intros Hon. unfold fetch, path_exists, mbind, M_bind, mret, M_ret.
  rewrite bool_decide_eq_true_2 by exact Hon. reflexivity. Qed.

Lemma fetch_ok (d : datafile) (clobber : bool) (w w' : world) (r : retval) :
  fetch d clobber w = (inl r, w') ->
  r = RetDatafile d /\ on_disk (filename d) w' /\
  requests w' = requests w + (if bool_decide (on_disk (filename d) w) && negb clobber then 0 else 1).
Proof.
  unfold fetch, path_exists, mbind, M_bind, mret, M_ret, urlopen, raise.
  fold (on_disk (filename d) w).
  destruct (bool_decide (on_disk (filename d) w) && negb clobber) eqn:Hc.
  - rewrite andb_true_iff in Hc. destruct Hc as [Hc _]. apply bool_decide_eq_true_1 in Hc.
    intros [= <- <-]. split; [reflexivity|]. split; [exact Hc|].
    rewrite requests_log. cbn. lia.
  - cbv zeta. destruct (http_ok _); [|discriminate].
    destruct (resp_code (server _) =? 200)%Z eqn:Hcode; cbn [negb]; [|discriminate].
    unfold except_os_error, makedirs, write_file.
    set (w1 := log (EvRequest _) (log (EvExists (filename d)) w)).
    destruct (bool_decide (df_base_dir d ∈ dom (w_files w1) \/ df_base_dir d ∈ w_dirs w1));
      intros [= <- <-]; (split; [reflexivity|]); split;
      [left; cbn; rewrite dom_insert_L; set_solver | | left; cbn; rewrite dom_insert_L; set_solver |];
      unfold requests; cbn [w_trace]; rewrite ?List.filter_app, ?length_app; cbn; lia.
Qed.

(** C3 (as corrected). When the local file is on disk, [fetch] with
    [clobber = false] does one existence check and returns, with no request.
    After a successful [fetch] with [clobber = false], a second one returns
    the same way, and the two calls together made one request if the file
    was absent at first and none if it was already there. *)
Theorem fetch_existing_file_no_request (d : datafile) (w : world) :
  (on_disk (filename d) w ->
     fetch d false w = (inl (RetDatafile d), log (EvExists (filename d)) w)) /\
  (forall r1 w1, fetch d false w = (inl r1, w1) ->
     fetch d false w1 = (inl (RetDatafile d), log (EvExists (filename d)) w1) /\
     requests (log (EvExists (filename d)) w1) =
       requests w + (if bool_decide (on_disk (filename d) w) then 0 else 1)).
Proof.
  split; [apply fetch_cached|].
  intros r1 w1 H. destruct (fetch_ok _ _ _ _ _ H) as [_ [Hon Hreq]].
  split; [now apply fetch_cached|].
  rewrite requests_log, Hreq, andb_true_r. cbn. lia.
Qed.

(** C9 (as corrected). A successful [fetch] returns the data-file record
    itself ([self]), not a path; the local path is its [filename], and that
    path exists on disk once [fetch] has returned. *)
Theorem fetch_returns_record (d : datafile) (clobber : bool) (w w' : world) (r : retval) :
  fetch d clobber w = (inl r, w') ->
  r = RetDatafile d /\ on_disk (filename d) w'.
Proof. intros H. destruct (fetch_ok _ _ _ _ _ H) as [Hr [Hon _]]. auto. Qed.



Lemma planet_one_match name d l w :
  planet_matches name = [(d, l)] ->
  snd (planet name w) =
    log (EvRequest (mast_req "confirmed_planets" None
                      [("kepler_name", VStr ("Kepler-" ++ d ++ " " ++ l)); ("max_records", VInt 1)])) w.
Proof.
  intros H. unfold planet. rewrite H. cbv zeta.
  rewrite bind_world; [apply planets_world|]. intros [|p ps] w'; reflexivity.
Qed.







(** ** Further properties of the module *)

Ltac dict_simpl :=
  repeat first [ rewrite dict_get_set_eq
               | rewrite dict_get_set_ne by (first [discriminate | congruence]) ].

(** X1. [ea_request] sends [table] = the table argument, whatever the caller
    passed; [order] is the sort column, followed by [+desc] for a pair with
    direction -1; every other parameter goes out as the caller gave it. *)
Theorem ea_params_keys (table : string) (sort : option sortspec)
    (params : list (string * string)) :
  dict_get "table" (ea_params table sort params) = Some table /\
  dict_get "order" (ea_params table sort params) =
    match sort with
    | None => dict_get "order" params
    | Some (SortStr s) => Some s
    | Some (SortPair c d) => Some (if (d =? -1)%Z then c ++ "+desc" else c)
    end /\
  (forall k, k <> "table" -> k <> "order" ->
     dict_get k (ea_params table sort params) = dict_get k params).
Proof.
  unfold ea_params. destruct sort as [[s|c d]|]; cbv zeta;
    [| destruct (d =? -1)%Z |]; (split; [|split]); try intros k Ht Ho; dict_simpl; reflexivity.
Qed.

(** X2. [mast_request] always sends [outputformat=JSON], [coordformat=dec] and
    [verb=3], overriding the caller; [action] is the caller's or [Search];
    a sort sets [ordercolumn1], and [descending1=on] for direction -1;
    every other parameter goes out as the caller gave it. *)
Theorem mast_params_keys (sort : option sortspec) (params : list (string * pyval)) :
  let p := mast_params sort params in
  dict_get "outputformat" p = Some (VStr "JSON") /\
  dict_get "coordformat" p = Some (VStr "dec") /\
  dict_get "verb" p = Some (VInt 3) /\
  dict_get "action" p =
    Some (match dict_get "action" params with Some v => v | None => VStr "Search" end) /\
  dict_get "ordercolumn1" p =
    match sort with
    | None => dict_get "ordercolumn1" params
    | Some (SortStr s) => Some (VStr s)
    | Some (SortPair c _) => Some (VStr c)
    end /\
  dict_get "descending1" p =
    match sort with
    | Some (SortPair _ d) => if (d =? -1)%Z then Some (VStr "on") else dict_get "descending1" params
    | _ => dict_get "descending1" params
    end /\
  (forall k, ~ List.In k ["action"; "outputformat"; "coordformat"; "verb"; "ordercolumn1"; "descending1"] ->
     dict_get k p = dict_get k params).
Proof.
  cbv zeta. unfold mast_params. cbv zeta.
  destruct sort as [[s|c d]|]; [| destruct (d =? -1)%Z eqn:Hd |];
    (split; [dict_simpl; reflexivity|]); (split; [dict_simpl; reflexivity|]);
    (split; [dict_simpl; reflexivity|]); (split; [dict_simpl; reflexivity|]);
    (split; [dict_simpl; reflexivity|]); (split; [dict_simpl; reflexivity|]);
    intros k Hk; cbn in Hk;
    assert (k <> "action") by (intros ->; apply Hk; auto 10); assert (k <> "outputformat") by (intros ->; apply Hk; auto 10);
    assert (k <> "coordformat") by (intros ->; apply Hk; auto 10); assert (k <> "verb") by (intros ->; apply Hk; auto 10);
    assert (k <> "ordercolumn1") by (intros ->; apply Hk; auto 10); assert (k <> "descending1") by (intros ->; apply Hk; auto 10);
    dict_simpl; reflexivity.
Qed.

Lemma dict_get_remove_ne {V} (k k' : string) (d : list (string * V)) :
  k' <> k ->
  dict_get k (List.filter (fun kv => negb (String.eqb (fst kv) k')) d) = dict_get k d.
Proof.
  intros Hne. unfold dict_get. induction d as [|[k'' v] d IH]; cbn; [reflexivity|].
  destruct (String.eqb k'' k') eqn:E1; cbn.
  - apply String.eqb_eq in E1. subst k''. apply String.eqb_neq in Hne. rewrite Hne. exact IH.
  - destruct (String.eqb k'' k); [reflexivity | exact IH].
Qed.

(** X3. [API.stars] passes every parameter but [max_records] through as given. *)
Theorem stars_params_other_keys (params : list (string * pyval)) (k : string) :
  k <> "max_records" -> dict_get k (stars_params params) = dict_get k params.
Proof.
  intros Hk. unfold stars_params, dict_pop. cbn [fst snd].
  rewrite dict_get_set_ne by congruence. apply dict_get_remove_ne. congruence.
Qed.


Lemma getattr_world (params : gmap string pyval) (k : string) (w : world) :
  snd (getattr params k w) = w.
Proof. unfold getattr. destruct (params !! k); reflexivity. Qed.

Lemma to_int_world (v : pyval) (w : world) : snd (to_int v w) = w.
Proof. destruct v as [n|f|s|]; cbn; try reflexivity. destruct (py_int s); reflexivity. Qed.

Lemma make_datafile_world data_root prod params w :
  snd (make_datafile data_root prod params w) = w.
Proof.
  unfold make_datafile.
  rewrite bind_world; [apply format_id_world|]. intros [] w1.
  rewrite bind_world; [apply getattr_world|]. intros kid w2.
  rewrite bind_world; [apply to_int_world|]. intros n w3. cbv zeta.
  rewrite bind_world; [apply getattr_world|]. intros ttype w4.
  rewrite bind_world; [apply getattr_world|]. intros ds w5. reflexivity.
Qed.

Lemma data_search_result kepler_id sc w :
  snd (_data_search kepler_id sc w) =
    log (EvRequest (mast_req "data_search" None (data_search_params kepler_id sc))) w /\
  fst (_data_search kepler_id sc w) <> inl [].
Proof.
  unfold _data_search.
  pose proof (mast_request_world "data_search" dataset_adapter None (data_search_params kepler_id sc) w)
    as Hw.
  unfold mbind, M_bind.
  destruct (mast_request "data_search" dataset_adapter None _ w) as [[[|x xs]|e] w1];
    cbn in Hw |- *; subst w1; split; (reflexivity || discriminate).
Qed.

Lemma data_files_no_fetch_world data_root prod kepler_id sc cl w :
  snd (data_files data_root prod kepler_id sc false cl w) =
    log (EvRequest (mast_req "data_search" None (data_search_params kepler_id sc))) w.
Proof.
  unfold data_files. rewrite bind_world; [apply data_search_result|].
  intros ds w1. rewrite bind_world; [|intros lcs w2; reflexivity].
  apply mapM_world, make_datafile_world.
Qed.

Lemma model_kepid_world (self : model) (w : world) : snd (model_kepid self w) = w.
Proof. destruct self as [[ps c]|p|[ps k c]|d]; cbn [model_kepid]; try apply getattr_world; reflexivity. Qed.

(** X5. [Model.get_light_curves] and [Model.get_target_pixel_files] read
    [self.kepid] and do not pass their [fetch] argument on, so they never
    download.  Reading [self.kepid] does no I/O and can only fail with an
    [AttributeError] (a [KOI] or [Planet] whose row has no [kepid]); then the
    call raises it with no I/O at all.  Otherwise, like [API.light_curves]
    and [API.target_pixel_files] without [fetch], the call makes the one
    [data_search] request for that id and no other I/O, whatever it returns
    and whatever [fetch] and [clobber] are. *)
Theorem data_files_without_fetch (data_root : string) (self : model)
    (short_cadence do_fetch clobber : bool) (w : world) :
  let search kepid :=
    log (EvRequest (mast_req "data_search" None (data_search_params kepid short_cadence))) w in
  (snd (model_kepid self w) = w /\
   forall e, fst (model_kepid self w) = inr e -> e = AttributeError "kepid") /\
  (forall e, model_kepid self w = (inr e, w) ->
     get_light_curves data_root self short_cadence do_fetch clobber w = (inr e, w) /\
     get_target_pixel_files data_root self short_cadence do_fetch clobber w = (inr e, w)) /\
  (forall kepid, model_kepid self w = (inl kepid, w) ->
     snd (get_light_curves data_root self short_cadence do_fetch clobber w) = search kepid /\
     snd (get_target_pixel_files data_root self short_cadence do_fetch clobber w) = search kepid /\
     snd (light_curves data_root kepid short_cadence false clobber w) = search kepid /\
     snd (target_pixel_files data_root kepid short_cadence false clobber w) = search kepid).
Proof.
  cbv zeta. split; [split|split].
  - apply model_kepid_world.
  - intros e. destruct self as [[ps c]|p|[ps k c]|d]; cbn [model_kepid];
      unfold getattr, mret, M_ret; try destruct (_ !! _); cbn; congruence.
  - intros e He. unfold get_light_curves, get_target_pixel_files.
    split; apply (bind_inr _ _ _ _ _ He).
  - intros kepid Hk. unfold get_light_curves, get_target_pixel_files, light_curves, target_pixel_files.
    repeat split; try (erewrite bind_inl by exact Hk); apply data_files_no_fetch_world.
Qed.

Lemma on_disk_mono (p : string) (w w' : world) :
  dom (w_files w) ⊆ dom (w_files w') -> w_dirs w ⊆ w_dirs w' -> on_disk p w -> on_disk p w'.
Proof. unfold on_disk. set_solver. Qed.

Lemma fetch_on_disk (d : datafile) (clobber : bool) (w w' : world) (r : retval) :
  fetch d clobber w = (inl r, w') ->
  dom (w_files w) ⊆ dom (w_files w') /\ w_dirs w ⊆ w_dirs w' /\ on_disk (filename d) w'.
Proof.
  unfold fetch, path_exists, mbind, M_bind, mret, M_ret, urlopen, raise.
  destruct (bool_decide _ && negb clobber) eqn:Hb.
  - intros [= <- <-]. apply andb_true_iff in Hb as [Hb _]. apply bool_decide_eq_true_1 in Hb.
    split; [cbn; set_solver|]. split; [cbn; set_solver|]. exact Hb.
  - cbv zeta. destruct (http_ok _); [|discriminate].
    destruct (negb (resp_code _ =? 200)%Z); [discriminate|].
    unfold except_os_error, makedirs, write_file.
    destruct (bool_decide (df_base_dir d ∈ _ \/ _)); cbn; intros H; injection H as <- <-;
      unfold on_disk; cbn; rewrite !dom_insert_L; set_solver.
Qed.

Lemma mapM_fetch_on_disk (clobber : bool) (lcs : list datafile) (w w' : world) (rs : list retval) :
  mapM (fun l => fetch l clobber) lcs w = (inl rs, w') ->
  dom (w_files w) ⊆ dom (w_files w') /\ w_dirs w ⊆ w_dirs w' /\
  Forall (fun d => on_disk (filename d) w') lcs.
Proof.
  revert w rs. induction lcs as [|l lcs IH]; intros w rs.
  - intros [= _ <-]. split; [set_solver|]. split; [set_solver | constructor].
  - cbn [mapM]. unfold mbind at 1, M_bind at 1.
    destruct (fetch l clobber w) as [[r1|e] w1] eqn:H1; [|discriminate].
    unfold mbind, M_bind. destruct (mapM _ lcs w1) as [[rs1|e] w2] eqn:H2; [|discriminate].
    intros [= _ <-]. destruct (fetch_on_disk _ _ _ _ _ H1) as [Hf1 [Hd1 Ho1]].
    destruct (IH w1 rs1 H2) as [Hf2 [Hd2 Ho2]].
    split; [set_solver|]. split; [set_solver|].
    constructor; [exact (on_disk_mono _ _ _ Hf2 Hd2 Ho1) | exact Ho2].
Qed.

Lemma mapM_length {A B} (f : A -> M B) (xs : list A) (ys : list B) (w w' : world) :
  mapM f xs w = (inl ys, w') -> List.length ys = List.length xs.
Proof.
  revert w w' ys. induction xs as [|x xs IH]; intros w w' ys.
  - intros [= <- _]. reflexivity.
  - cbn [mapM]. unfold mbind at 1, M_bind at 1.
    destruct (f x w) as [[y|e] w1]; [|discriminate].
    unfold mbind, M_bind. destruct (mapM f xs w1) as [[ys1|e] w2] eqn:H2; [|discriminate].
    intros [= <- _]. cbn. f_equal. exact (IH _ _ _ H2).
Qed.

(** X6. [API.light_curves] and [API.target_pixel_files] with [fetch=True]:
    when the call returns, the list is not empty, every data file in it
    is on disk at its [filename], and no file or directory that was on
    disk before has gone. *)
Theorem data_files_fetch_on_disk (data_root : string) (prod : product) (kepler_id : pyval)
    (short_cadence clobber : bool) (w w' : world) (lcs : list datafile) :
  data_files data_root prod kepler_id short_cadence true clobber w = (inl lcs, w') ->
  lcs <> [] /\ Forall (fun d => on_disk (filename d) w') lcs /\
  dom (w_files w) ⊆ dom (w_files w') /\ w_dirs w ⊆ w_dirs w'.
Proof.
  unfold data_files. destruct (data_search_result kepler_id short_cadence w) as [Hw Hne].
  unfold mbind at 1, M_bind at 1.
  destruct (_data_search kepler_id short_cadence w) as [[ds|e] w1] eqn:Hs; [|discriminate].
  cbn in Hw, Hne. subst w1.
  unfold mbind at 1, M_bind at 1.
  pose proof (mapM_world (make_datafile data_root prod) ds
                (log (EvRequest (mast_req "data_search" None (data_search_params kepler_id short_cadence))) w)
                (make_datafile_world data_root prod)) as Hw2.
  destruct (mapM (make_datafile data_root prod) ds _) as [[ls|e] w2] eqn:Hm; [|discriminate].
  cbn in Hw2. subst w2.
  unfold mbind, M_bind.
  destruct (mapM (fun l => fetch l clobber) ls _) as [[rs|e] w3] eqn:Hf; [|discriminate].
  intros [= <- <-].
  destruct (mapM_fetch_on_disk _ _ _ _ _ Hf) as [Hfd [Hdd Ho]].
  split; [|split; [exact Ho|]].
  - intros ->. apply (mapM_length _ _ _ _ _) in Hm. destruct ds; [congruence | discriminate].
  - split; cbn in Hfd, Hdd; assumption.
Qed.

(** X7. When [fetch] downloads (with [clobber], or when nothing is at the local
    path), a success leaves exactly the server's body at [filename] and
    every other file as it was, after one request. *)
Theorem fetch_download_writes_body (d : datafile) (clobber : bool) (w w' : world) (r : retval) :
  (clobber = true \/ ~ on_disk (filename d) w) ->
  fetch d clobber w = (inl r, w') ->
  w_files w' = <[filename d := resp_body (server {| req_url := url d; req_data := None |})]> (w_files w) /\
  requests w' = S (requests w).
Proof.
  intros Hc. unfold fetch, path_exists, mbind, M_bind, mret, M_ret, urlopen, raise.
  fold (on_disk (filename d) w).
  assert (Hb : bool_decide (on_disk (filename d) w) && negb clobber = false).
  { destruct Hc as [-> | Hn]; [apply andb_false_r|].
    rewrite bool_decide_eq_false_2 by exact Hn. reflexivity. }
  rewrite Hb. cbv zeta. destruct (http_ok _); [|discriminate].
  destruct (resp_code (server _) =? 200)%Z; cbn [negb]; [|discriminate].
  unfold except_os_error, makedirs, write_file.
  set (w1 := log (EvRequest _) (log (EvExists (filename d)) w)).
  destruct (bool_decide (df_base_dir d ∈ dom (w_files w1) \/ df_base_dir d ∈ w_dirs w1));
    intros [= <- <-]; (split; [reflexivity|]);
    unfold requests; cbn [w_trace]; rewrite ?List.filter_app, ?length_app; cbn; lia.
Qed.

(** X8. When [fetch] asks the server and gets a status other than 200, it
    raises and writes nothing: the only effects are the existence check and
    the request.  A status outside [200 <= code < 300] makes [urllib2.urlopen]
    raise [HTTPError] before [fetch] sees it; another 2xx status reaches
    [fetch]'s own check, which raises [APIError(code, url, "")]. *)
Theorem fetch_http_error (d : datafile) (clobber : bool) (w : world) :
  let req := {| req_url := url d; req_data := None |} in
  let code := resp_code (server req) in
  (clobber = true \/ ~ on_disk (filename d) w) ->
  ((200 < code < 300)%Z ->
     fetch d clobber w =
       (inr (APIError code (url d) ""), log (EvRequest req) (log (EvExists (filename d)) w))) /\
  ((code < 200 \/ 300 <= code)%Z ->
     fetch d clobber w =
       (inr (HTTPError code (resp_url (server req))), log (EvRequest req) (log (EvExists (filename d)) w))).
Proof.
  cbv zeta. intros Hc. unfold fetch, path_exists, mbind, M_bind, mret, M_ret, urlopen, raise.
  fold (on_disk (filename d) w).
  assert (Hb : bool_decide (on_disk (filename d) w) && negb clobber = false).
  { destruct Hc as [-> | Hn]; [apply andb_false_r|].
    rewrite bool_decide_eq_false_2 by exact Hn. reflexivity. }
  rewrite Hb. cbv zeta. split; intros Hr.
  - assert (Hok : http_ok (resp_code (server {| req_url := url d; req_data := None |})) = true).
    { unfold http_ok. apply andb_true_iff. split; [apply Z.leb_le | apply Z.ltb_lt]; lia. }
    rewrite Hok.
    assert (Hn : (resp_code (server {| req_url := url d; req_data := None |}) =? 200)%Z = false).
    { apply Z.eqb_neq. lia. }
    rewrite Hn. reflexivity.
  - assert (Hok : http_ok (resp_code (server {| req_url := url d; req_data := None |})) = false).
    { unfold http_ok. apply andb_false_iff.
      destruct Hr; [left; apply Z.leb_gt | right; apply Z.ltb_ge]; lia. }
    rewrite Hok. reflexivity.
Qed.

(** X9. A relationship accessor whose key is missing from the record raises
    [AttributeError] before any I/O; [Planet.koi] with a [None] KOI number
    raises [TypeError], also before any I/O. Nothing is cached. *)
Theorem accessors_missing_key :
  (forall ps w, ps !! "kepid" = None ->
     KOI_star (MkKOI ps None) w = (inr (AttributeError "kepid"), w)) /\
  (forall p w, planet__star p = None -> planet_params p !! "kepid" = None ->
     Planet_star p w = (inr (AttributeError "kepid"), w)) /\
  (forall p w, planet__koi p = None -> planet_params p !! "koi_number" = None ->
     Planet_koi p w = (inr (AttributeError "koi_number"), w)) /\
  (forall p w, planet__koi p = None -> planet_params p !! "koi_number" = Some VNone ->
     Planet_koi p w = (inr (TypeError "float() argument must be a string or a number"), w)).
Proof.
  split; [|split; [|split]].
  - intros ps w H. unfold KOI_star, getattr. rewrite H. reflexivity.
  - intros p w Hc H. unfold Planet_star, getattr. rewrite Hc, H. reflexivity.
  - intros p w Hc H. unfold Planet_koi, getattr. rewrite Hc, H. reflexivity.
  - intros p w Hc H. unfold Planet_koi, getattr. rewrite Hc, H. reflexivity.
Qed.





Lemma alpha_not_sep (c : ascii) : is_alpha c = true -> is_sep c = false.
Proof. intros H; destruct c as [[] [] [] [] [] [] [] []]; try reflexivity; discriminate H. Qed.

Lemma sep_not_digit (c : ascii) : is_sep c = true -> is_digit c = false.
Proof. intros H; destruct c as [[] [] [] [] [] [] [] []]; try reflexivity; discriminate H. Qed.

Lemma alpha_not_digit (c : ascii) : is_alpha c = true -> is_digit c = false.
Proof. intros H; destruct c as [[] [] [] [] [] [] [] []]; try reflexivity; discriminate H. Qed.

Lemma match_seps_letter_ok (seps : list ascii) (l : ascii) :
  forallb is_sep seps = true -> is_alpha l = true ->
  match_seps_letter (seps ++ [l]) = Some (l, []).
Proof.
  intros Hs Hl. induction seps as [|c seps IH]; cbn [app match_seps_letter].
  - rewrite (alpha_not_sep l Hl), Hl. reflexivity.
  - apply andb_true_iff in Hs as [Hc Hs]. rewrite Hc, (IH Hs). reflexivity.
Qed.

Lemma match_digits_ok (acc ds seps : list ascii) (l : ascii) :
  ds <> [] -> forallb is_digit ds = true -> forallb is_sep seps = true -> is_alpha l = true ->
  match_digits acc (ds ++ seps ++ [l]) = Some ((acc ++ ds)%list, l, []).
Proof.
  intros Hne Hd Hs Hl. revert acc. induction ds as [|c ds IH]; [congruence|]. intros acc.
  apply andb_true_iff in Hd as [Hc Hd]. cbn [app match_digits]. rewrite Hc.
  destruct ds as [|c' ds'].
  - cbn [app]. destruct seps as [|s seps'].
    + cbn [app match_digits]. rewrite (alpha_not_digit l Hl).
      cbn [match_seps_letter]. rewrite (alpha_not_sep l Hl), Hl. reflexivity.
    + cbn [app match_digits]. cbn [forallb] in Hs. apply andb_true_iff in Hs as [Hs1 Hs2].
      rewrite (sep_not_digit s Hs1).
      replace (s :: seps' ++ [l])%list with ((s :: seps') ++ [l])%list by reflexivity.
      rewrite (match_seps_letter_ok (s :: seps') l) by (exact Hl || (cbn [forallb]; rewrite Hs1, Hs2; reflexivity)).
      reflexivity.
  - rewrite IH by (discriminate || exact Hd). now rewrite <- app_assoc.
Qed.

Lemma findall_aux_nil (fuel : nat) : findall_aux fuel [] = [].
Proof. destruct fuel; reflexivity. Qed.

Lemma findall_aux_skip (fuel : nat) (c : ascii) (s : list ascii) :
  is_digit c = false -> findall_aux (S fuel) (c :: s) = findall_aux fuel s.
Proof. intros H. cbn [findall_aux match_digits]. now rewrite H. Qed.

Lemma findall_aux_ok (fuel : nat) (ds seps : list ascii) (l : ascii) :
  ds <> [] -> forallb is_digit ds = true -> forallb is_sep seps = true -> is_alpha l = true ->
  findall_aux (S fuel) (ds ++ seps ++ [l]) = [(string_of_list_ascii ds, String l EmptyString)].
Proof.
  intros Hne Hd Hs Hl. destruct ds as [|c ds]; [congruence|].
  cbn [app findall_aux].
  change (c :: (ds ++ seps ++ [l]))%list with ((c :: ds) ++ seps ++ [l])%list.
  rewrite (match_digits_ok [] (c :: ds) seps l Hne Hd Hs Hl). cbn [app].
  now rewrite findall_aux_nil.
Qed.

(** X12. [API.planet] accepts a planet name written as digits, then any run of
    dashes and whitespace, then one letter, with or without a leading
    "Kepler-": it finds the single pair (digits, letter) and sends the one
    request for the canonical "Kepler-digits letter". So "62b", "62 b",
    "Kepler-62b" and "Kepler-62 b" all ask for "Kepler-62 b". *)
Theorem planet_name_forms (ds seps : list ascii) (l : ascii) (w : world) :
  ds <> [] -> forallb is_digit ds = true -> forallb is_sep seps = true -> is_alpha l = true ->
  let d := string_of_list_ascii ds in
  let body := string_of_list_ascii (ds ++ seps ++ [l]) in
  let req := mast_req "confirmed_planets" None
               [("kepler_name", VStr ("Kepler-" ++ d ++ " " ++ String l "")); ("max_records", VInt 1)] in
  planet_matches body = [(d, String l "")] /\
  planet_matches ("Kepler-" ++ body) = [(d, String l "")] /\
  snd (planet body w) = log (EvRequest req) w /\
  snd (planet ("Kepler-" ++ body) w) = log (EvRequest req) w.
Proof.
  intros Hne Hd Hs Hl. cbv zeta.
  assert (H1 : planet_matches (string_of_list_ascii (ds ++ seps ++ [l])) =
               [(string_of_list_ascii ds, String l "")]).
  { unfold planet_matches. rewrite list_ascii_of_string_of_list_ascii.
    destruct ds as [|c ds]; [congruence|].
    change (List.length ((c :: ds) ++ seps ++ [l])) with (S (List.length (ds ++ seps ++ [l]))).
    apply findall_aux_ok; assumption. }
  assert (H2 : planet_matches ("Kepler-" ++ string_of_list_ascii (ds ++ seps ++ [l])) =
               [(string_of_list_ascii ds, String l "")]).
  { unfold planet_matches. cbn [String.append list_ascii_of_string List.length].
    rewrite list_ascii_of_string_of_list_ascii.
    rewrite !findall_aux_skip by reflexivity.
    destruct ds as [|c ds]; [congruence|].
    change (List.length ((c :: ds) ++ seps ++ [l])) with (S (List.length (ds ++ seps ++ [l]))).
    apply findall_aux_ok; assumption. }
  split; [exact H1|]. split; [exact H2|].
  split; [exact (planet_one_match _ _ _ w H1) | exact (planet_one_match _ _ _ w H2)].
Qed.






(** X15. [API.koi] converts its argument with [float()] first: a string that is
    not a float literal raises the [ValueError] of [float(s)] (with the
    runtime's message for [s]), and [None] raises [TypeError], with no
    request and no other I/O. *)
Theorem koi_bad_number (s : string) (w : world) :
  py_float s = None ->
  koi (VStr s) w = (inr (ValueError (float_error s)), w) /\
  koi VNone w = (inr (TypeError "float() argument must be a string or a number"), w).
Proof.
  intros H. split; unfold koi, to_float, mbind, M_bind; [rewrite H|]; reflexivity.
Qed.

Lemma mem_app (c : ascii) (a b : string) : Url.mem c (a ++ b) = Url.mem c a || Url.mem c b.
Proof. induction a as [|d a IH]; cbn; [reflexivity|]. now rewrite IH, orb_assoc. Qed.

Lemma pct_no_amp_eq (x : ascii) : Url.mem "&" (Url.pct x) = false /\ Url.mem "=" (Url.pct x) = false.
Proof. destruct x as [[] [] [] [] [] [] [] []]; split; reflexivity. Qed.

Lemma quote_no_char (c : ascii) (s safe : string) :
  Url.mem c Url.always_safe = false -> Url.mem c safe = false -> (forall x, Url.mem c (Url.pct x) = false) ->
  Url.mem c (Url.quote s safe) = false.
Proof.
  intros Ha Hs Hp. induction s as [|x s IH]; [reflexivity|].
  cbn [Url.quote]. rewrite mem_app, IH, orb_false_r.
  destruct (Url.mem x Url.always_safe || Url.mem x safe) eqn:Hx; [|apply Hp].
  cbn. rewrite orb_false_r. destruct (Ascii.eqb c x) eqn:Ecx; [|reflexivity].
  apply Ascii.eqb_eq in Ecx. subst x. now rewrite Ha, Hs in Hx.
Qed.

Lemma replace_char_no_char (c a : ascii) (b s : string) :
  Url.mem c s = false -> Url.mem c b = false -> Url.mem c (Str.replace_char a b s) = false.
Proof.
  intros Hs Hb. induction s as [|x s IH]; [reflexivity|].
  cbn in Hs. apply orb_false_iff in Hs as [Hx Hs]. cbn [Str.replace_char].
  destruct (Ascii.eqb x a); [rewrite mem_app, Hb, IH by exact Hs; reflexivity|].
  cbn. rewrite Hx. now apply IH.
Qed.

Lemma quote_plus_no_char (c : ascii) (s safe : string) :
  Url.mem c Url.always_safe = false -> Url.mem c safe = false -> Ascii.eqb c " " = false ->
  Ascii.eqb c "+" = false -> (forall x, Url.mem c (Url.pct x) = false) ->
  Url.mem c (Url.quote_plus s safe) = false.
Proof.
  intros Ha Hs Hsp Hplus Hp. unfold Url.quote_plus.
  destruct (Str.contains " " s); [|now apply quote_no_char].
  apply replace_char_no_char; [|cbn; now rewrite Hplus].
  apply quote_no_char; [exact Ha | | exact Hp]. rewrite mem_app, Hs. cbn. now rewrite Hsp.
Qed.

Lemma split_aux_nosep (sep : ascii) (cur : list ascii) (s : string) :
  Url.mem sep s = false ->
  Str.split_aux sep cur s = [string_of_list_ascii (rev cur ++ list_ascii_of_string s)].
Proof.
  revert cur. induction s as [|c s IH]; intros cur Hs; cbn [Str.split_aux list_ascii_of_string].
  - now rewrite app_nil_r.
  - cbn in Hs. apply orb_false_iff in Hs as [Hc Hs].
    rewrite Ascii.eqb_sym, Hc, IH by exact Hs. cbn [rev]. now rewrite <- app_assoc.
Qed.

Lemma split_aux_app (sep : ascii) (cur : list ascii) (a b : string) :
  Url.mem sep a = false ->
  Str.split_aux sep cur (a ++ String sep b) =
    string_of_list_ascii (rev cur ++ list_ascii_of_string a) :: Str.split_aux sep [] b.
Proof.
  revert cur. induction a as [|c a IH]; intros cur Ha; cbn [String.append Str.split_aux list_ascii_of_string].
  - now rewrite Ascii.eqb_refl, app_nil_r.
  - cbn in Ha. apply orb_false_iff in Ha as [Hc Ha].
    rewrite Ascii.eqb_sym, Hc, IH by exact Ha. cbn [rev]. now rewrite <- app_assoc.
Qed.

Lemma split_join (sep : ascii) (xs : list string) :
  xs <> [] -> Forall (fun x => Url.mem sep x = false) xs ->
  Str.split sep (Str.join (String sep "") xs) = xs.
Proof.
  unfold Str.split. intros Hne Hall. induction xs as [|x xs IH]; [congruence|].
  apply Forall_cons in Hall as [Hx Hall]. destruct xs as [|x' xs'].
  - cbn [Str.join]. rewrite split_aux_nosep by exact Hx. cbn. now rewrite string_of_list_ascii_of_string.
  - change (Str.join (String sep "") (x :: x' :: xs')) with (x ++ String sep (Str.join (String sep "") (x' :: xs'))).
    rewrite split_aux_app by exact Hx. rewrite IH by (discriminate || exact Hall).
    cbn. now rewrite string_of_list_ascii_of_string.
Qed.

Lemma dict_set_nonempty {V} (k : string) (v : V) (d : list (string * V)) : dict_set k v d <> [].
Proof.
  unfold dict_set. destruct (List.existsb _ d) eqn:E.
  - destruct d; [discriminate | discriminate].
  - destruct d; discriminate.
Qed.

Lemma split_pair (sep : ascii) (k v : string) :
  Url.mem sep k = false -> Url.mem sep v = false ->
  Str.split sep (k ++ String sep v) = [k; v].
Proof.
  intros Hk Hv. unfold Str.split. rewrite split_aux_app, split_aux_nosep by assumption.
  cbn. now rewrite !string_of_list_ascii_of_string.
Qed.

Lemma quote_plus_no_amp_eq (s safe : string) :
  Url.mem "&" safe = false -> Url.mem "=" safe = false ->
  Url.mem "&" (Url.quote_plus s safe) = false /\ Url.mem "=" (Url.quote_plus s safe) = false.
Proof.
  intros H1 H2. split; apply quote_plus_no_char; try reflexivity; try assumption;
    intros x; apply pct_no_amp_eq.
Qed.

(** X16. The body [mast_request] posts, [urllib.urlencode(params)], splits
    back on "&" and then on "=" into exactly the pairs it encodes, in
    order: the quoted key and the quoted [str] of the value. No key or
    value can break the encoding, since quoting leaves no "&" or "=". *)
Theorem urlencode_split (params : list (string * pyval)) :
  params <> [] ->
  map (Str.split "=") (Str.split "&" (urlencode params)) =
    map (fun kv => [Url.quote_plus (fst kv) ""; Url.quote_plus (str_of_pyval (snd kv)) ""]) params.
Proof.
  intros Hne. unfold urlencode.
  rewrite (split_join "&"%char).
  - rewrite map_map. apply map_ext. intros [k v]. cbn [fst snd].
    destruct (quote_plus_no_amp_eq k "" eq_refl eq_refl) as [_ Hk].
    destruct (quote_plus_no_amp_eq (str_of_pyval v) "" eq_refl eq_refl) as [_ Hv].
    apply split_pair; assumption.
  - destruct params; [congruence | discriminate].
  - apply List.Forall_forall. intros x Hx. apply in_map_iff in Hx as [[k v] [<- _]]. cbn [fst snd].
    destruct (quote_plus_no_amp_eq k "" eq_refl eq_refl) as [Hk _].
    destruct (quote_plus_no_amp_eq (str_of_pyval v) "" eq_refl eq_refl) as [Hv _].
    rewrite !mem_app, Hk, Hv. reflexivity.
Qed.

(** X17. The Exoplanet Archive payload leaves keys unquoted; when no key holds
    "&" or "=", the posted body splits back on "&" and "=" into the pairs
    of [ea_request]'s parameters, each value quoted with the safe
    characters double quote, single quote and plus. *)
Theorem ea_payload_split (table : string) (sort : option sortspec) (params : list (string * string)) :
  Forall (fun kv => Url.mem "&" (fst kv) = false /\ Url.mem "=" (fst kv) = false)
    (ea_params table sort params) ->
  map (Str.split "=") (Str.split "&" (Str.join "&" (ea_payload (ea_params table sort params)))) =
    map (fun kv => [fst kv; Url.quote_plus (snd kv) ea_safe]) (ea_params table sort params).
Proof.
  intros Hkeys.
  assert (Hne : ea_params table sort params <> []).
  { unfold ea_params. destruct sort as [[s|c d]|]; [| destruct (d =? -1)%Z |]; apply dict_set_nonempty. }
  unfold ea_payload. rewrite (split_join "&"%char).
  - rewrite map_map. apply map_ext_in. intros [k v] Hin. cbn [fst snd].
    rewrite List.Forall_forall in Hkeys. destruct (Hkeys _ Hin) as [_ Hk]. cbn [fst] in Hk.
    destruct (quote_plus_no_amp_eq v ea_safe eq_refl eq_refl) as [_ Hv].
    apply split_pair; assumption.
  - destruct (ea_params table sort params); [congruence | discriminate].
  - apply List.Forall_forall. intros x Hx. apply in_map_iff in Hx as [[k v] [<- Hin]]. cbn [fst snd].
    rewrite List.Forall_forall in Hkeys. destruct (Hkeys _ Hin) as [Hk _]. cbn [fst] in Hk.
    destruct (quote_plus_no_amp_eq v ea_safe eq_refl eq_refl) as [Hv _].
    rewrite !mem_app, Hk, Hv. reflexivity.
Qed.

End Kplr.

Module Demo.

(** Decimal integer literals with an optional minus sign. *)
Fixpoint digits_val (s : list ascii) (acc : Z) : option Z :=
  match s with
  | [] => Some acc
  | c :: s' =>
      if is_digit c then digits_val s' (acc * 10 + Z.of_nat (nat_of_ascii c - 48))%Z else None
  end.

Definition demo_int (s : string) : option Z :=
  match list_ascii_of_string s with
  | [] => None
  | "-"%char :: ((_ :: _) as r) => option_map Z.opp (digits_val r 0)
  | l => digits_val l 0
  end.

(** Floats as whole hundredths, enough for KOI numbers such as 145.01;
    [float()] of a string is left out. *)

(** The [ValueError] messages of CPython 2.7 for a short byte string with no
    leading blank that does not parse (for [float], one with no float prefix). *)
Definition demo_int_error (s : string) : string :=
  "invalid literal for int() with base 10: '" ++ s ++ "'".

Definition demo_float_error (s : string) : string :=
  "could not convert string to float: " ++ s.
Definition cents_str (f : Z) : string :=
  Str.int_str (f / 100) ++ "." ++ (if (f mod 100 <? 10)%Z then "0" else "") ++ Str.int_str (f mod 100).

#[export] Instance demo_rt : PyRuntime := {|
  F := Z;
  py_int := demo_int;
  py_float := fun _ => None;
  int_error := demo_int_error;
  float_error := demo_float_error;
  float_of_int := fun n => (n * 100)%Z;
  int_of_float := fun f => (f / 100)%Z;
  float_str := cents_str;
  float_fmt_08_2f := fun f => let s := cents_str f in Str.zeros (8 - String.length s) ++ s;
  J := list (string * Z);
  json_loads := fun s => if String.eqb s "[]" then Some [] else None
|}.

Definition adapt (r : list (string * Z)) : gmap string pyval :=
  foldl (fun m kv => <[fst kv := VInt (snd kv)]> m) ∅ r.

#[export] Instance demo_ad : MastAdapters := {| planet_adapter := adapt; star_adapter := adapt |}.

(** A server finding nothing: a bare CSV header from the Exoplanet
    Archive, an empty JSON list from MAST. *)
Definition srv_empty (r : request) : response :=
  {| resp_code := 200; resp_url := req_url r;
     resp_body := if String.eqb (req_url r) ea_url then "kepoi_name,kepid" else "[]" |}.



(** A server handing out a file body. *)
Definition srv_file (r : request) : response :=
  {| resp_code := 200; resp_url := req_url r; resp_body := "SIMPLE" |}.

Definition w0 : world := {| w_files := ∅; w_dirs := ∅; w_trace := [] |}.

(** A long-cadence light curve as [API.light_curves] gets it. *)
Definition lc_params : gmap string pyval :=
  <["ktc_kepler_id" := VInt 10666592]>
  (<["ktc_target_type" := VStr "LC"]>
  (<["sci_data_set_name" := VStr "KPLR010666592-2009131110544"]> ∅)).

Definition lc : datafile :=
  MkDatafile LightCurve lc_params "010666592" "/home/data/data/lightcurves/010666592"
    "kplr010666592-2009131110544_llc.fits".

(** A world where that light curve is already downloaded. *)
Definition w_cached : world :=
  {| w_files := {[ "/home/data/data/lightcurves/010666592/kplr010666592-2009131110544_llc.fits" := "SIMPLE" ]};
     w_dirs := {[ "/home/data/data/lightcurves/010666592" ]}; w_trace := [] |}.


Lemma lc_made : make_datafile "/home/data/" LightCurve lc_params w0 = (inl lc, w0).
Proof. reflexivity. Qed.



(** C3: the light curve is already on disk; two fetches without [clobber]
    make no request at all, not one. *)
Lemma fetch_twice_cex :
  on_disk (filename lc) w_cached /\
  requests (snd (fetch srv_file lc false (snd (fetch srv_file lc false w_cached)))) = 0.
Proof.
  split; [|reflexivity].
  left. apply elem_of_dom. exists "SIMPLE". reflexivity.
Qed.

(** C9: a download into an empty world. *)
Lemma fetch_returns_record_witness :
  fetch srv_file lc false w0 = (inl (RetDatafile lc), snd (fetch srv_file lc false w0)) /\
  RetDatafile lc = RetDatafile lc /\ on_disk (filename lc) (snd (fetch srv_file lc false w0)).
Proof.
  assert (H : fetch srv_file lc false w0 = (inl (RetDatafile lc), snd (fetch srv_file lc false w0)))
    by reflexivity.
  split; [exact H | exact (fetch_returns_record srv_file lc false w0 _ _ H)].
Defined.

(** C9: what [fetch] returns is the record, not its local path. *)
Lemma fetch_returns_record_cex :
  fst (fetch srv_file lc false w0) = inl (RetDatafile lc) /\
  fst (fetch srv_file lc false w0) <> inl (RetStr (filename lc)).
Proof.
  assert (H : fst (fetch srv_file lc false w0) = inl (RetDatafile lc)) by reflexivity.
  split; [exact H | rewrite H; discriminate].
Defined.






(** A server without the file asked for. *)
Definition srv_missing (r : request) : response :=
  {| resp_code := 404; resp_url := req_url r; resp_body := "Not Found" |}.

(** A server answering 204 No Content. *)
Definition srv_no_content (r : request) : response :=
  {| resp_code := 204; resp_url := req_url r; resp_body := "" |}.



(** [API.stars] keeps the KIC id it is given. *)
Lemma stars_params_other_keys_witness :
  "kic_kepler_id" <> "max_records" /\
  dict_get "kic_kepler_id" (stars_params [("kic_kepler_id", VInt 9787239)]) = Some (VInt 9787239).
Proof.
  split; [discriminate|].
  rewrite (stars_params_other_keys [("kic_kepler_id", VInt 9787239)] "kic_kepler_id" ltac:(discriminate)).
  reflexivity.
Defined.

(** The light curve downloaded into an empty world. *)
Lemma fetch_download_writes_body_witness :
  ~ on_disk (filename lc) w0 /\
  w_files (snd (fetch srv_file lc false w0)) = {[ filename lc := "SIMPLE" ]} /\
  requests (snd (fetch srv_file lc false w0)) = 1.
Proof.
  assert (Hn : ~ on_disk (filename lc) w0) by (unfold on_disk; cbn; rewrite dom_empty_L; set_solver).
  destruct (fetch_download_writes_body srv_file lc false w0 (snd (fetch srv_file lc false w0))
              (RetDatafile lc) (or_intror Hn) ltac:(reflexivity)) as [Hf Hr].
  split; [exact Hn|]. split; [rewrite Hf; reflexivity | rewrite Hr; reflexivity].
Defined.

(** The light curve asked for with [clobber] from a server that lacks it
    (404: [HTTPError]) and from one that answers 204 ([APIError]). *)
Lemma fetch_http_error_witness :
  fst (fetch srv_missing lc true w_cached) = inr (HTTPError 404 (url lc)) /\
  w_files (snd (fetch srv_missing lc true w_cached)) = w_files w_cached /\
  fst (fetch srv_no_content lc true w_cached) = inr (APIError 204 (url lc) "") /\
  w_files (snd (fetch srv_no_content lc true w_cached)) = w_files w_cached.
Proof.
  destruct (fetch_http_error srv_missing lc true w_cached (or_introl eq_refl)) as [_ H404].
  rewrite (H404 ltac:(simpl; lia)).
  destruct (fetch_http_error srv_no_content lc true w_cached (or_introl eq_refl)) as [H204 _].
  rewrite (H204 ltac:(simpl; lia)).
  repeat split; reflexivity.
Defined.

(** "62 b" and "Kepler-62 b" both give the pair (62, b). *)
Lemma planet_name_forms_witness :
  planet_matches "62 b" = [("62", "b")] /\ planet_matches "Kepler-62 b" = [("62", "b")].
Proof.
  destruct (planet_name_forms srv_empty ["6"%char; "2"%char] [" "%char] "b"%char w0
              ltac:(discriminate) eq_refl eq_refl eq_refl) as [H1 [H2 _]].
  exact (conj H1 H2).
Defined.



(** A KOI number that is not a number. *)
Lemma koi_bad_number_witness :
  koi srv_empty (VStr "K145") w0 = (inr (ValueError "could not convert string to float: K145"), w0).
Proof. exact (proj1 (koi_bad_number srv_empty "K145" w0 eq_refl)). Defined.

(** The body of [API.planet("62b")]'s request. *)
Lemma urlencode_split_witness :
  map (Str.split "=") (Str.split "&" (urlencode [("kepler_name", VStr "Kepler-62 b"); ("max_records", VInt 1)])) =
    [["kepler_name"; "Kepler-62+b"]; ["max_records"; "1"]].
Proof.
  rewrite (urlencode_split [("kepler_name", VStr "Kepler-62 b"); ("max_records", VInt 1)] ltac:(discriminate)).
  reflexivity.
Defined.

(** The payload of [API.kois(where="kepid like '9787239'")]. *)
Lemma ea_payload_split_witness :
  map (Str.split "=") (Str.split "&" (Str.join "&" (ea_payload (ea_params "cumulative" None [("where", "kepid like '9787239'")])))) =
    [["where"; "kepid+like+'9787239'"]; ["table"; "cumulative"]].
Proof.
  rewrite (ea_payload_split "cumulative" None [("where", "kepid like '9787239'")]
             ltac:(cbn; repeat constructor)).
  reflexivity.
Defined.

End Demo.

(** A runtime whose JSON rows are string pairs, and a MAST answering one
    long-cadence light curve to [data_search]; the JSON text stands for
    that row with its double quotes left out. *)
Module DemoData.

#[export] Instance data_rt : PyRuntime := {|
  F := Z;
  py_int := Demo.demo_int;
  py_float := fun _ => None;
  int_error := Demo.demo_int_error;
  float_error := Demo.demo_float_error;
  float_of_int := fun n => (n * 100)%Z;
  int_of_float := fun f => (f / 100)%Z;
  float_str := Demo.cents_str;
  float_fmt_08_2f := fun f => let s := Demo.cents_str f in Str.zeros (8 - String.length s) ++ s;
  J := list (string * string);
  json_loads := fun s =>
    if String.eqb s "[]" then Some []
    else if String.eqb s "[{ktc_kepler_id: 10666592, ktc_target_type: LC, sci_data_set_name: KPLR010666592-2009131110544}]"
    then Some [[("ktc_kepler_id", "10666592"); ("ktc_target_type", "LC");
                ("sci_data_set_name", "KPLR010666592-2009131110544")]]
    else None
|}.

#[export] Instance data_dad : DatasetAdapter := {|
  dataset_adapter := fun r => foldl (fun m kv => <[fst kv := VStr (snd kv)]> m) ∅ r
|}.

(** MAST: the one data set; the archive: the file body. *)
Definition srv_data (r : request) : response :=
  {| resp_code := 200; resp_url := req_url r;
     resp_body := if String.eqb (req_url r) (mast_url "data_search")
                  then "[{ktc_kepler_id: 10666592, ktc_target_type: LC, sci_data_set_name: KPLR010666592-2009131110544}]"
                  else "SIMPLE" |}.

(** [API.light_curves(10666592, short_cadence=False, fetch=True)] into an empty world. *)
Lemma data_files_fetch_on_disk_witness :
  exists lcs w',
    data_files srv_data "/home/data/" LightCurve (VStr "10666592") false true false Demo.w0 = (inl lcs, w') /\
    lcs <> [] /\ Forall (fun d => on_disk (filename d) w') lcs.
Proof.
  pose (r := data_files srv_data "/home/data/" LightCurve (VStr "10666592") false true false Demo.w0).
  fold r. exists (match fst r with inl l => l | inr _ => [] end), (snd r).
  assert (H : r = (inl (match fst r with inl l => l | inr _ => [] end), snd r)) by reflexivity.
  destruct (data_files_fetch_on_disk srv_data _ _ _ _ _ _ _ _ H) as [Hne [Ho _]].
  exact (conj H (conj Hne Ho)).
Defined.

(** [get_light_curves] of a KOI whose row lacks [kepid], and of one that has it. *)
Lemma data_files_without_fetch_witness :
  get_light_curves srv_data "/home/data/" (ModelKOI (MkKOI ∅ None)) true true false Demo.w0 =
    (inr (AttributeError "kepid"), Demo.w0) /\
  snd (get_light_curves srv_data "/home/data/" (ModelKOI (MkKOI {["kepid" := VStr "10666592"]} None))
         false true false Demo.w0) =
    log (EvRequest (mast_req "data_search" None (data_search_params (VStr "10666592") false))) Demo.w0.
Proof.
  split.
  - destruct (data_files_without_fetch srv_data "/home/data/" (ModelKOI (MkKOI ∅ None))
                true true false Demo.w0) as [_ [Hmiss _]].
    exact (proj1 (Hmiss (AttributeError "kepid") eq_refl)).
  - destruct (data_files_without_fetch srv_data "/home/data/"
                (ModelKOI (MkKOI {["kepid" := VStr "10666592"]} None)) false true false Demo.w0)
      as [_ [_ Hk]].
    exact (proj1 (Hk (VStr "10666592") eq_refl)).
Defined.

End DemoData.
